(** * gluesample: the handler stubs, the batch job stub and the shared utilities

    A shallow embedding of the Python sources

      - [src/utils/common.py]
      - [src/lambda/release_lock.py]
      - [src/lambda/s3_trigger.py]
      - [src/glue/raw_ingestion_job.py]

    together with the part of the Python run time they call
    ([str], [json.dumps], [print], [os.environ.get]).

    Python text is a [string] whose characters are read as the code points
    0..255.  Floats, sets and user-defined classes are outside the value
    type.  The two run-time limits that make [str] and [json.dumps] raise
    on values of that type, the digit limit of int-to-text conversion and
    the recursion limit, are part of the interpreter state. *)

From Stdlib Require Import ZArith NArith String Ascii List Bool.
From stdpp Require Import base strings gmap pretty.
Import ListNotations.

Set Warnings "-register-all".

Local Open Scope string_scope.
Local Open Scope list_scope.
Local Open Scope Z_scope.

(** ** Python values and the library functions the sources call *)

Module Py.

(** Values of the built-in types that can reach the functions under
    study.  A dict is kept as its items in insertion order. *)
Inductive value : Type :=
| VNone
| VBool (b : bool)
| VInt (n : Z)
| VStr (s : string)
| VBytes (s : string)
| VList (xs : list value)
| VTuple (xs : list value)
| VDict (items : list (value * value)).

Inductive exn : Type :=
| TypeError (msg : string)
| KeyError (key : string)
| ValueError (msg : string)
| RecursionError (msg : string).

(** What a run leaves behind for its host: printed lines and the calls
    made on the Spark/Glue job API, in program order. *)
Inductive effect : Type :=
| Printed (text : string)
| SparkContext_new
| GlueContext_new
| SparkSession_get
| Job_new
| Job_init (job_name : string) (args : gmap string string)
| Job_commit.

(** The interpreter limits that [str] and [json.dumps] run into.

    - [digit_limit]: the digit limit of int-to-text conversion,
      [sys.get_int_max_str_digits()].  The interpreter accepts 0, which
      switches the check off ([None] here), or a limit of at least 640
      ([Some extra] stands for [640 + extra]); the default 4300 is
      [Some 3660].
    - [repr_room]: how many objects deep [str(body)] can descend at its
      call site before the recursion limit is hit.
    - [json_room]: how many containers deep the encoder of
      [json.dumps] can descend at its call site.

    CPython derives the two rooms from [sys.getrecursionlimit()] and the
    depth of the running frame.  They are positive: the sources are taken
    to run where the calls themselves, one scalar and one flat container
    still fit. *)
Record limits : Type := Limits {
  digit_limit : option nat;
  repr_room : positive;
  json_room : positive
}.

Definition int_max_str_digits (lim : limits) : nat :=
  match digit_limit lim with
  | None => 0
  | Some extra => 640 + extra
  end.

Record world : Type := World {
  trace : list effect;
  environ : gmap string string;
  sys : limits
}.

(** Statements either finish with a value or raise; both leave a world. *)
Definition M (A : Type) : Type := world -> (exn + A) * world.

Definition ret {A} (a : A) : M A := fun w => (inr a, w).

Definition raise {A} (e : exn) : M A := fun w => (inl e, w).

Definition bind {A B} (m : M A) (k : A -> M B) : M B :=
  fun w => match m w with
           | (inl e, w') => (inl e, w')
           | (inr a, w') => k a w'
           end.

Definition lift {A} (r : exn + A) : M A :=
  match r with
  | inl e => raise e
  | inr a => ret a
  end.

Declare Scope py_scope.
Delimit Scope py_scope with py.
Notation "x <- c ;; k" := (bind c (fun x => k))
  (at level 100, c at next level, right associativity) : py_scope.
Notation "c ;; k" := (bind c (fun _ => k))
  (at level 100, right associativity) : py_scope.

Definition emit (e : effect) : M unit :=
  fun w => (inr tt, World (trace w ++ [e]) (environ w) (sys w)).

(** Calls of library functions that read the interpreter limits. *)
Definition with_limits {A} (f : limits -> exn + A) : M A :=
  fun w => (f (sys w), w).

(** [print(text)]: one entry per call, the trailing newline left out. *)
Definition print (text : string) : M unit := emit (Printed text).

Definition stdout (w : world) : list string :=
  flat_map (fun e => match e with Printed t => [t] | _ => [] end) (trace w).

(** *** Characters *)

Definition dq : string := String "034"%char EmptyString.
Definition sq : string := "'".
Definition backslash : string := "\".

Definition hex_digit (n : N) : ascii :=
  ascii_of_N (if (n <? 10)%N then 48 + n else 87 + n)%N.

(** Two lower-case hex digits, as in ['%02x']. *)
Definition hex2 (n : N) : string :=
  String (hex_digit (n / 16)%N) (String (hex_digit (n mod 16)%N) EmptyString).

Definition char (c : ascii) : string := String c EmptyString.

Fixpoint concat_map (f : ascii -> string) (s : string) : string :=
  match s with
  | EmptyString => EmptyString
  | String c r => f c +:+ concat_map f r
  end.

Fixpoint contains_char (c : ascii) (s : string) : bool :=
  match s with
  | EmptyString => false
  | String d r => Ascii.eqb c d || contains_char c r
  end.

Fixpoint join (sep : string) (l : list string) : string :=
  match l with
  | [] => EmptyString
  | [x] => x
  | x :: r => x +:+ sep +:+ join sep r
  end.

(** *** Integers as text *)

(** [int.__repr__]: decimal digits, refused with [ValueError] when the
    number has more digits than the limit allows (the sign is not
    counted). *)
Definition exceeds_digits (lim : limits) (n : Z) : bool :=
  (0 <? int_max_str_digits lim)%nat
  && (10 ^ Z.of_nat (int_max_str_digits lim) <=? Z.abs n).

Definition int_text (lim : limits) (n : Z) : exn + string :=
  if exceeds_digits lim n
  then inl (ValueError ("Exceeds the limit (" +:+ pretty (int_max_str_digits lim)
                        +:+ " digits) for integer string conversion; "
                        +:+ "use sys.set_int_max_str_digits() to increase the limit"))
  else inr (pretty n).

(** *** [repr] and [str] *)

(** The quote [repr] picks: double only when the text has a single
    quote and no double quote. *)
Definition repr_quote (s : string) : string :=
  if contains_char "'"%char s && negb (contains_char "034"%char s)
  then dq else sq.

Definition repr_str_char (quote : string) (c : ascii) : string :=
  let n := N_of_ascii c in
  if String.eqb (char c) quote || (n =? 92)%N then backslash +:+ char c
  else if (n =? 9)%N then "\t"
  else if (n =? 10)%N then "\n"
  else if (n =? 13)%N then "\r"
  else if (n <? 32)%N || (n =? 127)%N then "\x" +:+ hex2 n
  else if (n <? 127)%N then char c
  else if (n <=? 160)%N || (n =? 173)%N then "\x" +:+ hex2 n
  else char c.

Definition repr_str (s : string) : string :=
  let q := repr_quote s in q +:+ concat_map (repr_str_char q) s +:+ q.

Definition repr_bytes_char (quote : string) (c : ascii) : string :=
  let n := N_of_ascii c in
  if String.eqb (char c) quote || (n =? 92)%N then backslash +:+ char c
  else if (n =? 9)%N then "\t"
  else if (n =? 10)%N then "\n"
  else if (n =? 13)%N then "\r"
  else if (n <? 32)%N || (127 <=? n)%N then "\x" +:+ hex2 n
  else char c.

Definition repr_bytes (s : string) : string :=
  let q := repr_quote s in "b" +:+ q +:+ concat_map (repr_bytes_char q) s +:+ q.

Definition repr_recursion : exn :=
  RecursionError "maximum recursion depth exceeded while getting the repr of an object".

(** [repr(v)] with [room] objects of depth left: every object entered
    takes one, scalars included; the items of a container are written
    left to right and the first exception ends the call. *)
Fixpoint repr_at (lim : limits) (v : value) (room : nat) {struct v} : exn + string :=
  match room with
  | O => inl repr_recursion
  | S room' =>
      match v with
      | VNone => inr "None"
      | VBool true => inr "True"
      | VBool false => inr "False"
      | VInt n => int_text lim n
      | VStr s => inr (repr_str s)
      | VBytes s => inr (repr_bytes s)
      | VList xs =>
          match (fix elems (l : list value) : exn + list string :=
                   match l with
                   | [] => inr []
                   | x :: r =>
                       match repr_at lim x room' with
                       | inl e => inl e
                       | inr s =>
                           match elems r with
                           | inl e => inl e
                           | inr ss => inr (s :: ss)
                           end
                       end
                   end) xs with
          | inl e => inl e
          | inr ss => inr ("[" +:+ join ", " ss +:+ "]")
          end
      | VTuple xs =>
          match (fix elems (l : list value) : exn + list string :=
                   match l with
                   | [] => inr []
                   | x :: r =>
                       match repr_at lim x room' with
                       | inl e => inl e
                       | inr s =>
                           match elems r with
                           | inl e => inl e
                           | inr ss => inr (s :: ss)
                           end
                       end
                   end) xs with
          | inl e => inl e
          | inr [s] => inr ("(" +:+ s +:+ ",)")
          | inr ss => inr ("(" +:+ join ", " ss +:+ ")")
          end
      | VDict items =>
          match (fix members (l : list (value * value)) : exn + list string :=
                   match l with
                   | [] => inr []
                   | kv :: r =>
                       match repr_at lim (fst kv) room' with
                       | inl e => inl e
                       | inr k =>
                           match repr_at lim (snd kv) room' with
                           | inl e => inl e
                           | inr s =>
                               match members r with
                               | inl e => inl e
                               | inr ss => inr ((k +:+ ": " +:+ s) :: ss)
                               end
                           end
                       end
                   end) items with
          | inl e => inl e
          | inr ss => inr ("{" +:+ join ", " ss +:+ "}")
          end
      end
  end.

(** [str(v)]: the text itself for a [str]; the other types go through
    [repr] with the room the interpreter has left. *)
Definition str (lim : limits) (v : value) : exn + string :=
  match v with
  | VStr s => inr s
  | _ => repr_at lim v (Pos.to_nat (repr_room lim))
  end.

(** [isinstance(v, str)] *)
Definition is_str (v : value) : bool :=
  match v with
  | VStr _ => true
  | _ => false
  end.

Definition type_name (v : value) : string :=
  match v with
  | VNone => "NoneType"
  | VBool _ => "bool"
  | VInt _ => "int"
  | VStr _ => "str"
  | VBytes _ => "bytes"
  | VList _ => "list"
  | VTuple _ => "tuple"
  | VDict _ => "dict"
  end.

(** *** [json.dumps] with its default options *)

(** [ensure_ascii]: everything outside [' '..'~'], the double quote and
    the backslash are escaped. *)
Definition json_escape_char (c : ascii) : string :=
  let n := N_of_ascii c in
  if (n =? 34)%N then backslash +:+ dq
  else if (n =? 92)%N then backslash +:+ backslash
  else if (n =? 8)%N then "\b"
  else if (n =? 12)%N then "\f"
  else if (n =? 10)%N then "\n"
  else if (n =? 13)%N then "\r"
  else if (n =? 9)%N then "\t"
  else if (n <? 32)%N || (126 <? n)%N then "\u00" +:+ hex2 n
  else char c.

Definition json_str (s : string) : string :=
  dq +:+ concat_map json_escape_char s +:+ dq.

(** A dict key is written as text when it is a str, an int, a bool or
    None; any other key raises. *)
Definition json_key (lim : limits) (k : value) : exn + string :=
  match k with
  | VStr s => inr s
  | VBool true => inr "true"
  | VBool false => inr "false"
  | VNone => inr "null"
  | VInt n => int_text lim n
  | _ => inl (TypeError ("keys must be str, int, float, bool or None, not "
                         +:+ type_name k))
  end.

Definition json_recursion : exn :=
  RecursionError "maximum recursion depth exceeded while encoding a JSON object".

(** The encoder with [room] containers of depth left: entering a list,
    a tuple or a dict takes one, scalars take none; items are written
    left to right, a dict item key first, and the first exception ends
    the call. *)
Fixpoint json_dumps_at (lim : limits) (v : value) (room : nat) {struct v} : exn + string :=
  match v with
  | VNone => inr "null"
  | VBool true => inr "true"
  | VBool false => inr "false"
  | VInt n => int_text lim n
  | VStr s => inr (json_str s)
  | VBytes _ => inl (TypeError "Object of type bytes is not JSON serializable")
  | VList xs | VTuple xs =>
      match room with
      | O => inl json_recursion
      | S room' =>
          match (fix elems (l : list value) : exn + list string :=
                   match l with
                   | [] => inr []
                   | x :: r =>
                       match json_dumps_at lim x room' with
                       | inl e => inl e
                       | inr s =>
                           match elems r with
                           | inl e => inl e
                           | inr ss => inr (s :: ss)
                           end
                       end
                   end) xs with
          | inl e => inl e
          | inr ss => inr ("[" +:+ join ", " ss +:+ "]")
          end
      end
  | VDict items =>
      match room with
      | O => inl json_recursion
      | S room' =>
          match (fix members (l : list (value * value)) : exn + list string :=
                   match l with
                   | [] => inr []
                   | kv :: r =>
                       match json_key lim (fst kv) with
                       | inl e => inl e
                       | inr k =>
                           match json_dumps_at lim (snd kv) room' with
                           | inl e => inl e
                           | inr s =>
                               match members r with
                               | inl e => inl e
                               | inr ss => inr ((json_str k +:+ ": " +:+ s) :: ss)
                               end
                           end
                       end
                   end) items with
          | inl e => inl e
          | inr ss => inr ("{" +:+ join ", " ss +:+ "}")
          end
      end
  end.

(** [json.dumps(v)] at a call site of the sources. *)
Definition json_dumps (lim : limits) (v : value) : exn + string :=
  json_dumps_at lim v (Pos.to_nat (json_room lim)).

(** *** Dicts and the process environment *)

(** [d[key]] for a text key: the value of the first item stored under
    that text. *)
Fixpoint lookup_item (key : string) (items : list (value * value)) : option value :=
  match items with
  | [] => None
  | (VStr k, x) :: r => if String.eqb k key then Some x else lookup_item key r
  | _ :: r => lookup_item key r
  end.

Definition getitem (d : value) (key : string) : option value :=
  match d with
  | VDict items => lookup_item key items
  | _ => None
  end.

(** [list(d.keys())] *)
Definition keys (d : value) : option (list value) :=
  match d with
  | VDict items => Some (map fst items)
  | _ => None
  end.

(** [os.environ.get(name, default)]: a name that is not text is
    rejected by the key encoder; a missing name gives the default. *)
Definition os_environ_get (name default : value) : M value :=
  fun w =>
    match name with
    | VStr n =>
        (inr (match environ w !! n with
              | Some x => VStr x
              | None => default
              end), w)
    | _ => (inl (TypeError ("str expected, not " +:+ type_name name)), w)
    end.

(** *** Which values [json.dumps] accepts *)

Definition json_key_ok (k : value) : bool :=
  match k with
  | VNone | VBool _ | VInt _ | VStr _ => true
  | _ => false
  end.

(** The shape [json.dumps] needs, read off the value alone: no bytes
    anywhere below, and every dict key a str, an int, a bool or None.
    Off this shape [json.dumps] raises whatever the limits; on it, it
    still raises when an int or the nesting is beyond them. *)
Fixpoint json_serializable (v : value) : bool :=
  match v with
  | VNone | VBool _ | VInt _ | VStr _ => true
  | VBytes _ => false
  | VList xs | VTuple xs => forallb json_serializable xs
  | VDict items =>
      forallb (fun kv => json_key_ok (fst kv) && json_serializable (snd kv)) items
  end.

Definition returns {A} (r : exn + A) : bool :=
  match r with
  | inr _ => true
  | inl _ => false
  end.

(** [args[key]] on the options mapping of a job. *)
Definition option_getitem (args : gmap string string) (key : string) : M string :=
  match args !! key with
  | Some x => ret x
  | None => raise (KeyError key)
  end.

End Py.

Import Py.
Local Open Scope py_scope.

(** ** [src/utils/common.py] *)

Module common.

(** A function without effects; it is in [M] because [str(body)] can
    raise. *)
Definition create_lambda_response (status_code body : value) : M value :=
  text <- (if is_str body then ret body
           else (s <- with_limits (fun lim => str lim body) ;; ret (VStr s))) ;;
  ret (VDict [(VStr "statusCode", status_code); (VStr "body", text)]).

Definition get_environment_variable (name default : value) : M value :=
  os_environ_get name default.

Definition hello_world (_ : unit) : value :=
  VStr "Hello World from Common Utils!".

End common.

(** ** [src/lambda/release_lock.py] *)

Module release_lock.

Definition lambda_handler {C : Type} (event : value) (context : C) : M value :=
  print "Hello World - Release Lock Lambda" ;;
  logged <- with_limits (fun lim => json_dumps lim event) ;;
  print ("Received event: " +:+ logged) ;;
  body <- with_limits (fun lim =>
            json_dumps lim (VDict [(VStr "message", VStr "Hello World from Release Lock Lambda");
                                   (VStr "lock_released", VBool true)])) ;;
  ret (VDict [(VStr "statusCode", VInt 200); (VStr "body", VStr body)]).

End release_lock.

(** ** [src/lambda/s3_trigger.py] *)

Module s3_trigger.

Definition lambda_handler {C : Type} (event : value) (context : C) : M value :=
  print "Hello World - S3 Trigger Lambda" ;;
  logged <- with_limits (fun lim => json_dumps lim event) ;;
  print ("Received event: " +:+ logged) ;;
  body <- with_limits (fun lim =>
            json_dumps lim (VDict [(VStr "message", VStr "Hello World from S3 Trigger Lambda");
                                   (VStr "event_processed", VBool true)])) ;;
  ret (VDict [(VStr "statusCode", VInt 200); (VStr "body", VStr body)]).

End s3_trigger.

(** ** [src/glue/raw_ingestion_job.py] *)

Module raw_ingestion_job.

Section Script.

(** [awsglue.utils.getResolvedOptions], the argument parser of the
    platform: it either raises or hands back the options it found. *)
Variable getResolvedOptions : list string -> list string -> exn + gmap string string.

(** The module body, run top to bottom on [sys.argv]. *)
Definition script (argv : list string) : M unit :=
  args <- lift (getResolvedOptions argv ["JOB_NAME"]) ;;
  emit SparkContext_new ;;
  emit GlueContext_new ;;
  emit SparkSession_get ;;
  emit Job_new ;;
  job_name <- option_getitem args "JOB_NAME" ;;
  emit (Job_init job_name args) ;;
  print "Hello World - Raw Ingestion Glue Job" ;;
  job_name <- option_getitem args "JOB_NAME" ;;
  print ("Job Name: " +:+ job_name) ;;
  emit Job_commit.

End Script.

End raw_ingestion_job.

(** ** The texts and values the specification names *)

Definition quoted (s : string) : string := dq +:+ s +:+ dq.

Definition release_lock_text : string :=
  "{" +:+ quoted "message" +:+ ": " +:+ quoted "Hello World from Release Lock Lambda"
      +:+ ", " +:+ quoted "lock_released" +:+ ": true}".

Definition s3_trigger_text : string :=
  "{" +:+ quoted "message" +:+ ": " +:+ quoted "Hello World from S3 Trigger Lambda"
      +:+ ", " +:+ quoted "event_processed" +:+ ": true}".

Definition release_lock_body : value :=
  VDict [(VStr "message", VStr "Hello World from Release Lock Lambda");
         (VStr "lock_released", VBool true)].

Definition s3_trigger_body : value :=
  VDict [(VStr "message", VStr "Hello World from S3 Trigger Lambda");
         (VStr "event_processed", VBool true)].

Definition envelope (status : Z) (body : string) : value :=
  VDict [(VStr "statusCode", VInt status); (VStr "body", VStr body)].

Definition after_prints (w : world) (lines : list string) : world :=
  World (trace w ++ map Printed lines) (environ w) (sys w).

(** The limits of an interpreter with the default digit limit, at a
    call site with room for 900 levels. *)
Definition sample_limits : limits := Limits (Some 3660%nat) 900 900.

Definition empty_world : world := World [] ∅ sample_limits.

(** The smallest int with 4301 digits. *)
Definition huge_int : Z := 10 ^ 4300.

(** [None] wrapped in [depth] lists: [[[...None...]]]. *)
Fixpoint nested_list (depth : nat) : value :=
  match depth with
  | O => VNone
  | S d => VList [nested_list d]
  end.

(** *** Which values fit the limits *)

Definition key_fits (lim : limits) (k : value) : bool :=
  match k with
  | VInt n => negb (exceeds_digits lim n)
  | _ => true
  end.

(** Every int within the digit limit and no more than [room] containers
    nested. *)
Fixpoint json_fits (lim : limits) (v : value) (room : nat) {struct v} : bool :=
  match v with
  | VInt n => negb (exceeds_digits lim n)
  | VList xs | VTuple xs =>
      match room with
      | O => false
      | S room' => forallb (fun x => json_fits lim x room') xs
      end
  | VDict items =>
      match room with
      | O => false
      | S room' =>
          forallb (fun kv => key_fits lim (fst kv) && json_fits lim (snd kv) room')
                  items
      end
  | _ => true
  end.

(** The events [json.dumps] returns on: the right shape, within the
    limits. *)
Definition json_accepts (lim : limits) (v : value) : bool :=
  json_serializable v && json_fits lim v (Pos.to_nat (json_room lim)).

(** Every int within the digit limit and no more than [room] objects
    nested, scalars counted. *)
Fixpoint repr_fits (lim : limits) (v : value) (room : nat) {struct v} : bool :=
  match room with
  | O => false
  | S room' =>
      match v with
      | VInt n => negb (exceeds_digits lim n)
      | VList xs | VTuple xs => forallb (fun x => repr_fits lim x room') xs
      | VDict items =>
          forallb (fun kv => repr_fits lim (fst kv) room' && repr_fits lim (snd kv) room')
                  items
      | _ => true
      end
  end.

(** The bodies [str] returns on. *)
Definition str_accepts (lim : limits) (v : value) : bool :=
  match v with
  | VStr _ => true
  | _ => repr_fits lim v (Pos.to_nat (repr_room lim))
  end.

(** An upload event that carries raw bytes, as a direct caller can pass. *)
Definition bytes_event : value :=
  VDict [(VStr "bucket", VStr "x"); (VStr "key", VStr "y"); (VStr "blob", VBytes "")].

(** The upload event of the specification's scenario. *)
Definition upload_event : value :=
  VDict [(VStr "bucket", VStr "x"); (VStr "key", VStr "y")].

(** A mapping keyed by a pair. *)
Definition pair_key_event : value :=
  VDict [(VTuple [VInt 1; VInt 2], VStr "pair")].

(** A process environment with one variable set. *)
Definition home_environ : gmap string string := {[ "HOME" := "/root" ]}.

(** An argument parser that finds one job name on every command line. *)
Definition nightly_options (argv keys : list string) : exn + gmap string string :=
  inr {[ "JOB_NAME" := "nightly" ]}.

(** Text made of the characters [' '] to ['~'] only: one physical line
    of plain ASCII when printed. *)
Definition printable_char (c : ascii) : bool :=
  (32 <=? N_of_ascii c)%N && (N_of_ascii c <=? 126)%N.

Fixpoint printable (s : string) : bool :=
  match s with
  | EmptyString => true
  | String c r => printable_char c && printable r
  end.

(** An argument parser that rejects every command line. *)
Definition rejecting_options (argv keys : list string) : exn + gmap string string :=
  inl (TypeError "the following arguments are required: --JOB_NAME").

(** An argument parser that resolves no option at all. *)
Definition unnamed_options (argv keys : list string) : exn + gmap string string :=
  inr ∅.

(** * Properties *)

(** ** Induction on values through their lists *)

Section value_ind_nested.

Variable P : value -> Prop.
Hypothesis P_none : P VNone.
Hypothesis P_bool : forall b, P (VBool b).
Hypothesis P_int : forall n, P (VInt n).
Hypothesis P_str : forall s, P (VStr s).
Hypothesis P_bytes : forall s, P (VBytes s).
Hypothesis P_list : forall xs, Forall P xs -> P (VList xs).
Hypothesis P_tuple : forall xs, Forall P xs -> P (VTuple xs).
Hypothesis P_dict :
  forall items, Forall (fun kv => P (fst kv) /\ P (snd kv)) items -> P (VDict items).

Fixpoint value_ind_nested (v : value) : P v :=
  match v with
  | VNone => P_none
  | VBool b => P_bool b
  | VInt n => P_int n
  | VStr s => P_str s
  | VBytes s => P_bytes s
  | VList xs =>
      P_list xs ((fix all (l : list value) : Forall P l :=
                    match l with
                    | [] => List.Forall_nil P
                    | x :: r => @List.Forall_cons _ P x r (value_ind_nested x) (all r)
                    end) xs)
  | VTuple xs =>
      P_tuple xs ((fix all (l : list value) : Forall P l :=
                     match l with
                     | [] => List.Forall_nil P
                     | x :: r => @List.Forall_cons _ P x r (value_ind_nested x) (all r)
                     end) xs)
  | VDict items =>
      P_dict items
        ((fix all (l : list (value * value))
            : Forall (fun kv => P (fst kv) /\ P (snd kv)) l :=
            match l with
            | [] => List.Forall_nil _
            | kv :: r =>
                @List.Forall_cons _ _ kv r
                  (conj (value_ind_nested (fst kv)) (value_ind_nested (snd kv)))
                  (all r)
            end) items)
  end.

End value_ind_nested.

(** ** When the library calls return *)

Ltac split_result :=
  match goal with
  | |- context [match ?a with inl _ => _ | inr _ => _ end] => destruct a
  end.

Lemma int_text_returns (lim : limits) (n : Z) :
  returns (int_text lim n) = negb (exceeds_digits lim n).
Proof. unfold int_text. by destruct (exceeds_digits lim n). Qed.

Lemma json_key_returns (lim : limits) (k : value) :
  returns (json_key lim k) = json_key_ok k && key_fits lim k.
Proof.
  destruct k as [ | [] | n | | | | | ]; try reflexivity.
  apply int_text_returns.
Qed.

Lemma json_dumps_at_returns (lim : limits) (v : value) :
  forall room,
    returns (json_dumps_at lim v room) = json_serializable v && json_fits lim v room.
Proof.
  induction v as [ | [] | n | s | s | xs IH | xs IH | items IH ]
    using value_ind_nested; intros room; try reflexivity.
  - apply int_text_returns.
  - destruct room as [ | room' ]; simpl; [ by rewrite andb_false_r | ].
    match goal with
    | |- returns (match ?f xs with _ => _ end) = _ =>
        assert (E : returns (f xs)
                    = forallb json_serializable xs
                      && forallb (fun x => json_fits lim x room') xs)
    end.
    { induction IH as [ | x r Hx _ IHr ]; [ reflexivity | ].
      simpl. specialize (Hx room').
      destruct (json_dumps_at lim x room'); simpl in Hx;
        [ | split_result; simpl in IHr ];
        destruct (json_serializable x), (json_fits lim x room'),
          (forallb json_serializable r), (forallb (fun x => json_fits lim x room') r);
        simpl in *; congruence. }
    rewrite <- E. split_result; reflexivity.
  - destruct room as [ | room' ]; simpl; [ by rewrite andb_false_r | ].
    match goal with
    | |- returns (match ?f xs with _ => _ end) = _ =>
        assert (E : returns (f xs)
                    = forallb json_serializable xs
                      && forallb (fun x => json_fits lim x room') xs)
    end.
    { induction IH as [ | x r Hx _ IHr ]; [ reflexivity | ].
      simpl. specialize (Hx room').
      destruct (json_dumps_at lim x room'); simpl in Hx;
        [ | split_result; simpl in IHr ];
        destruct (json_serializable x), (json_fits lim x room'),
          (forallb json_serializable r), (forallb (fun x => json_fits lim x room') r);
        simpl in *; congruence. }
    rewrite <- E. split_result; reflexivity.
  - destruct room as [ | room' ]; simpl; [ by rewrite andb_false_r | ].
    match goal with
    | |- returns (match ?f items with _ => _ end) = ?a && ?b =>
        assert (E : returns (f items) = a && b)
    end.
    { induction IH as [ | kv r [_ Hx] _ IHr ]; [ reflexivity | ].
      simpl. specialize (Hx room').
      pose proof (json_key_returns lim (fst kv)) as Hk.
      destruct (json_key lim (fst kv)); simpl in Hk;
        [ | destruct (json_dumps_at lim (snd kv) room'); simpl in Hx;
            [ | split_result; simpl in IHr ] ];
        destruct (json_key_ok (fst kv)), (key_fits lim (fst kv)),
          (json_serializable (snd kv)), (json_fits lim (snd kv) room');
        simpl in *; try congruence;
        repeat match goal with
               | H : _ = ?a && ?b |- _ => destruct a, b; simpl in H
               end; simpl; congruence. }
    rewrite <- E. split_result; reflexivity.
Qed.

Lemma repr_at_returns (lim : limits) (v : value) :
  forall room, returns (repr_at lim v room) = repr_fits lim v room.
Proof.
  induction v as [ | [] | n | s | s | xs IH | xs IH | items IH ]
    using value_ind_nested; intros [ | room' ]; try reflexivity.
  - apply int_text_returns.
  - simpl.
    match goal with
    | |- returns (match ?f xs with _ => _ end) = ?a =>
        assert (E : returns (f xs) = a)
    end.
    { induction IH as [ | x r Hx _ IHr ]; [ reflexivity | ].
      simpl. rewrite <- (Hx room'), <- IHr.
      destruct (repr_at lim x room'); [ reflexivity | ].
      split_result; reflexivity. }
    rewrite <- E. split_result; reflexivity.
  - simpl.
    match goal with
    | |- returns (match ?f xs with _ => _ end) = ?a =>
        assert (E : returns (f xs) = a)
    end.
    { induction IH as [ | x r Hx _ IHr ]; [ reflexivity | ].
      simpl. rewrite <- (Hx room'), <- IHr.
      destruct (repr_at lim x room'); [ reflexivity | ].
      split_result; reflexivity. }
    rewrite <- E.
    match goal with
    | |- returns (match ?a with _ => _ end) = _ =>
        destruct a as [ | [ | ? [ | ? ? ] ] ]
    end; reflexivity.
  - simpl.
    match goal with
    | |- returns (match ?f items with _ => _ end) = ?a =>
        assert (E : returns (f items) = a)
    end.
    { induction IH as [ | kv r [Hk Hx] _ IHr ]; [ reflexivity | ].
      simpl. rewrite <- (Hk room'), <- (Hx room'), <- IHr.
      destruct (repr_at lim (fst kv) room'); [ reflexivity | ].
      destruct (repr_at lim (snd kv) room'); [ reflexivity | ].
      split_result; reflexivity. }
    rewrite <- E. split_result; reflexivity.
Qed.

Lemma str_returns (lim : limits) (v : value) :
  returns (str lim v) = str_accepts lim v.
Proof. destruct v; try reflexivity; apply repr_at_returns. Qed.

Lemma json_dumps_returns (lim : limits) (v : value) :
  returns (json_dumps lim v) = json_accepts lim v.
Proof. apply json_dumps_at_returns. Qed.

Lemma json_dumps_accepted (lim : limits) (v : value) :
  json_accepts lim v = true -> exists s, json_dumps lim v = inr s.
Proof.
  rewrite <- json_dumps_returns.
  destruct (json_dumps lim v) as [e | s]; [ discriminate | eauto ].
Qed.

Lemma json_dumps_unserializable (lim : limits) (v : value) :
  json_serializable v = false -> exists e, json_dumps lim v = inl e.
Proof.
  intros Hbad. pose proof (json_dumps_returns lim v) as Hret.
  unfold json_accepts in Hret. rewrite Hbad in Hret.
  destruct (json_dumps lim v) as [e | s]; [ eauto | discriminate ].
Qed.

Lemma fixed_bodies_text (lim : limits) :
  json_dumps lim release_lock_body = inr release_lock_text
  /\ json_dumps lim s3_trigger_body = inr s3_trigger_text.
Proof.
  unfold json_dumps.
  destruct (Pos2Nat.is_succ (json_room lim)) as [room ->]. split; reflexivity.
Qed.

(** ** One run of a handler stub, by the outcome of logging the event *)

Lemma release_lock_run {C : Type} (event : value) (context : C) (w : world) :
  release_lock.lambda_handler event context w =
  match json_dumps (sys w) event with
  | inl e => (inl e, after_prints w ["Hello World - Release Lock Lambda"])
  | inr logged =>
      (inr (envelope 200 release_lock_text),
       after_prints w ["Hello World - Release Lock Lambda";
                       "Received event: " +:+ logged])
  end.
Proof.
  unfold release_lock.lambda_handler, bind, print, emit, with_limits. simpl.
  destruct (json_dumps (sys w) event) as [e | logged]; simpl; [ reflexivity | ].
  change (VDict [(VStr "message", VStr "Hello World from Release Lock Lambda");
                 (VStr "lock_released", VBool true)]) with release_lock_body.
  rewrite (proj1 (fixed_bodies_text (sys w))).
  unfold after_prints, ret. simpl. by rewrite <- app_assoc.
Qed.

Lemma s3_trigger_run {C : Type} (event : value) (context : C) (w : world) :
  s3_trigger.lambda_handler event context w =
  match json_dumps (sys w) event with
  | inl e => (inl e, after_prints w ["Hello World - S3 Trigger Lambda"])
  | inr logged =>
      (inr (envelope 200 s3_trigger_text),
       after_prints w ["Hello World - S3 Trigger Lambda";
                       "Received event: " +:+ logged])
  end.
Proof.
  unfold s3_trigger.lambda_handler, bind, print, emit, with_limits. simpl.
  destruct (json_dumps (sys w) event) as [e | logged]; simpl; [ reflexivity | ].
  change (VDict [(VStr "message", VStr "Hello World from S3 Trigger Lambda");
                 (VStr "event_processed", VBool true)]) with s3_trigger_body.
  rewrite (proj2 (fixed_bodies_text (sys w))).
  unfold after_prints, ret. simpl. by rewrite <- app_assoc.
Qed.

Lemma create_lambda_response_run (status_code body : value) (w : world) :
  common.create_lambda_response status_code body w =
  match str (sys w) body with
  | inl e => (inl e, w)
  | inr text => (inr (VDict [(VStr "statusCode", status_code); (VStr "body", VStr text)]), w)
  end.
Proof.
  unfold common.create_lambda_response, bind, with_limits, ret.
  destruct (is_str body) eqn:Htext.
  - destruct body; try discriminate Htext. reflexivity.
  - destruct (str (sys w) body); reflexivity.
Qed.

(** ** Small ints are within every digit limit *)

Lemma int_text_small (lim : limits) (n : Z) :
  Z.abs n < 10 ^ 640 -> int_text lim n = inr (pretty n).
Proof.
  intros Hsmall. unfold int_text, exceeds_digits, int_max_str_digits.
  destruct (digit_limit lim) as [extra | ]; [ | reflexivity ].
  replace (10 ^ Z.of_nat (640 + extra) <=? Z.abs n) with false;
    [ by rewrite andb_false_r | ].
  symmetry. apply Z.leb_gt.
  eapply Z.lt_le_trans; [ exact Hsmall | ].
  apply Z.pow_le_mono_r; lia.
Qed.

Lemma envelope_200_dumps (lim : limits) (text : string) :
  exists s, json_dumps lim (envelope 200 text) = inr s.
Proof.
  unfold json_dumps. destruct (Pos2Nat.is_succ (json_room lim)) as [room ->].
  simpl. rewrite (int_text_small lim 200); [ eauto | ].
  apply Z.lt_le_trans with (10 ^ 3); [ reflexivity | ].
  apply Z.pow_le_mono_r; lia.
Qed.
(** ** The lock-release handler stub *)

(** C1, as stated, fails: an event that carries raw bytes makes
    [release_lock.lambda_handler] raise the serializer's [TypeError] after
    the greeting line, so it does not return an envelope for every event. *)
Lemma release_lock_raises_on_bytes_event :
  release_lock.lambda_handler bytes_event VNone empty_world
  = (inl (TypeError "Object of type bytes is not JSON serializable"),
     World [Printed "Hello World - Release Lock Lambda"] ∅ sample_limits)
  /\ ~ (forall (event context : value) (w : world),
          exists w', release_lock.lambda_handler event context w
                     = (inr (envelope 200 release_lock_text), w')).
Proof.
  split; [ reflexivity | ].
  intros H. destruct (H bytes_event VNone empty_world) as [w' Hw'].
  discriminate Hw'.
Qed.

(** C1, amended: for every event [json.dumps] accepts (of a
    serializable shape, its ints within the digit limit and its nesting
    within the recursion limit of the interpreter) and every context,
    [release_lock.lambda_handler] prints its greeting and the serialized
    event, and returns the envelope with statusCode 200 whose body is the
    text [{"message": "Hello World from Release Lock Lambda",
    "lock_released": true}], the same for all such inputs. *)
Theorem release_lock_returns_fixed_envelope
    {C : Type} (event : value) (context : C) (w : world) :
  json_accepts (sys w) event = true ->
  exists logged,
    json_dumps (sys w) event = inr logged
    /\ release_lock.lambda_handler event context w
       = (inr (envelope 200 release_lock_text),
          after_prints w ["Hello World - Release Lock Lambda";
                          "Received event: " +:+ logged])
    /\ json_dumps (sys w) release_lock_body = inr release_lock_text
    /\ getitem release_lock_body "lock_released" = Some (VBool true).
Proof.
  intros Hok. destruct (json_dumps_accepted (sys w) event Hok) as [logged Hlogged].
  exists logged. rewrite release_lock_run, Hlogged.
  repeat split; try reflexivity; apply fixed_bodies_text.
Qed.

Lemma release_lock_returns_fixed_envelope_witness :
  json_accepts sample_limits (VDict []) = true
  /\ exists logged,
      json_dumps sample_limits (VDict []) = inr logged
      /\ release_lock.lambda_handler (VDict []) VNone empty_world
         = (inr (envelope 200 release_lock_text),
            after_prints empty_world ["Hello World - Release Lock Lambda";
                                      "Received event: " +:+ logged])
      /\ json_dumps sample_limits release_lock_body = inr release_lock_text
      /\ getitem release_lock_body "lock_released" = Some (VBool true).
Proof.
  split; [ reflexivity | ].
  apply (release_lock_returns_fixed_envelope (VDict []) VNone empty_world).
  reflexivity.
Defined.

(** ** The upload-trigger handler stub *)

(** C2, as stated, fails: on an upload event that carries raw bytes
    [s3_trigger.lambda_handler] raises while logging, so the fixed envelope
    is not returned for every event. *)
Lemma s3_trigger_raises_on_bytes_event :
  s3_trigger.lambda_handler bytes_event VNone empty_world
  = (inl (TypeError "Object of type bytes is not JSON serializable"),
     World [Printed "Hello World - S3 Trigger Lambda"] ∅ sample_limits)
  /\ ~ (forall (event context : value) (w : world),
          exists w', s3_trigger.lambda_handler event context w
                     = (inr (envelope 200 s3_trigger_text), w')).
Proof.
  split; [ reflexivity | ].
  intros H. destruct (H bytes_event VNone empty_world) as [w' Hw'].
  discriminate Hw'.
Qed.

(** C2, amended: for every event [json.dumps] accepts (of a
    serializable shape, its ints within the digit limit and its nesting
    within the recursion limit of the interpreter) and every context,
    [s3_trigger.lambda_handler] returns the envelope with statusCode 200
    whose body is the text [{"message": "Hello World from S3 Trigger
    Lambda", "event_processed": true}]; the event only shows up in the
    logged line. *)
Theorem s3_trigger_returns_fixed_envelope
    {C : Type} (event : value) (context : C) (w : world) :
  json_accepts (sys w) event = true ->
  exists logged,
    json_dumps (sys w) event = inr logged
    /\ s3_trigger.lambda_handler event context w
       = (inr (envelope 200 s3_trigger_text),
          after_prints w ["Hello World - S3 Trigger Lambda";
                          "Received event: " +:+ logged])
    /\ json_dumps (sys w) s3_trigger_body = inr s3_trigger_text
    /\ getitem s3_trigger_body "event_processed" = Some (VBool true).
Proof.
  intros Hok. destruct (json_dumps_accepted (sys w) event Hok) as [logged Hlogged].
  exists logged. rewrite s3_trigger_run, Hlogged.
  repeat split; try reflexivity; apply fixed_bodies_text.
Qed.

Lemma s3_trigger_returns_fixed_envelope_witness :
  json_accepts sample_limits upload_event = true
  /\ exists logged,
      json_dumps sample_limits upload_event = inr logged
      /\ s3_trigger.lambda_handler upload_event VNone empty_world
         = (inr (envelope 200 s3_trigger_text),
            after_prints empty_world ["Hello World - S3 Trigger Lambda";
                                      "Received event: " +:+ logged])
      /\ json_dumps sample_limits s3_trigger_body = inr s3_trigger_text
      /\ getitem s3_trigger_body "event_processed" = Some (VBool true).
Proof.
  split; [ reflexivity | ].
  apply (s3_trigger_returns_fixed_envelope upload_event VNone empty_world).
  reflexivity.
Defined.

(** ** Both handler stubs on events the serializer rejects *)

(** C4: when the event is not JSON-serializable, both handler stubs raise
    the exception of [json.dumps(event)]: the greeting is the only line
    printed and no envelope is returned. *)
Theorem handlers_raise_on_unserializable_event
    {C : Type} (event : value) (context : C) (w : world) :
  json_serializable event = false ->
  exists e,
    json_dumps (sys w) event = inl e
    /\ release_lock.lambda_handler event context w
       = (inl e, after_prints w ["Hello World - Release Lock Lambda"])
    /\ s3_trigger.lambda_handler event context w
       = (inl e, after_prints w ["Hello World - S3 Trigger Lambda"]).
Proof.
  intros Hbad. destruct (json_dumps_unserializable (sys w) event Hbad) as [e He].
  exists e. rewrite release_lock_run, s3_trigger_run, He. auto.
Qed.

Lemma handlers_raise_on_unserializable_event_witness :
  json_serializable pair_key_event = false
  /\ exists e,
      json_dumps sample_limits pair_key_event = inl e
      /\ release_lock.lambda_handler pair_key_event VNone empty_world
         = (inl e, after_prints empty_world ["Hello World - Release Lock Lambda"])
      /\ s3_trigger.lambda_handler pair_key_event VNone empty_world
         = (inl e, after_prints empty_world ["Hello World - S3 Trigger Lambda"]).
Proof.
  split; [ reflexivity | ].
  apply (handlers_raise_on_unserializable_event pair_key_event VNone empty_world).
  reflexivity.
Defined.

(** ** The shared utilities *)

(** C3, as stated, fails: on a body that is an int of 4301 digits
    [str(body)] raises [ValueError], so [create_lambda_response] raises
    and returns no envelope. *)
Lemma create_lambda_response_raises_on_huge_int :
  common.create_lambda_response (VInt 200) (VInt huge_int) empty_world
  = (inl (ValueError ("Exceeds the limit (4300 digits) for integer string conversion; "
                      +:+ "use sys.set_int_max_str_digits() to increase the limit")),
     empty_world)
  /\ ~ (forall (status_code body : value) (w : world),
          returns (fst (common.create_lambda_response status_code body w)) = true).
Proof.
  assert (Hraise : common.create_lambda_response (VInt 200) (VInt huge_int) empty_world
                   = (inl (ValueError
                             ("Exceeds the limit (4300 digits) for integer string conversion; "
                              +:+ "use sys.set_int_max_str_digits() to increase the limit")),
                      empty_world)).
  { vm_compute. reflexivity. }
  split; [ exact Hraise | ].
  intros H. specialize (H (VInt 200) (VInt huge_int) empty_world).
  rewrite Hraise in H. discriminate H.
Qed.

(** C3, amended: for every status code and every body [str] accepts
    (text, or a value whose ints are within the digit limit and whose
    nesting is within the recursion limit of the interpreter),
    [create_lambda_response] does not raise, leaves the world alone and
    returns a dict with exactly the keys [statusCode] and [body], in that
    order, the body being text. *)
Theorem create_lambda_response_two_fields
    (status_code body : value) (w : world) :
  str_accepts (sys w) body = true ->
  exists r,
    common.create_lambda_response status_code body w = (inr r, w)
    /\ keys r = Some [VStr "statusCode"; VStr "body"]
    /\ getitem r "statusCode" = Some status_code
    /\ exists text, getitem r "body" = Some (VStr text).
Proof.
  intros Hok. rewrite create_lambda_response_run.
  rewrite <- str_returns in Hok.
  destruct (str (sys w) body) as [e | text]; [ discriminate Hok | ].
  eexists. split; [ reflexivity | ]. simpl. eauto.
Qed.

Lemma create_lambda_response_two_fields_witness :
  str_accepts sample_limits (VList [VNone; VInt 7]) = true
  /\ exists r,
      common.create_lambda_response (VInt 200) (VList [VNone; VInt 7]) empty_world
      = (inr r, empty_world)
      /\ keys r = Some [VStr "statusCode"; VStr "body"]
      /\ getitem r "statusCode" = Some (VInt 200)
      /\ exists text, getitem r "body" = Some (VStr text).
Proof.
  split; [ vm_compute; reflexivity | ].
  apply (create_lambda_response_two_fields
           (VInt 200) (VList [VNone; VInt 7]) empty_world).
  vm_compute. reflexivity.
Defined.

(** C5, as stated, fails: on a body nested deeper than the recursion
    limit allows, here 901 objects against room for 900, [str(body)]
    raises [RecursionError] and no envelope comes back. *)
Lemma create_lambda_response_raises_on_deep_body :
  common.create_lambda_response (VInt 200) (nested_list 900) empty_world
  = (inl repr_recursion, empty_world)
  /\ ~ (forall (status_code body : value) (w : world),
          exists text,
            common.create_lambda_response status_code body w
            = (inr (VDict [(VStr "statusCode", status_code); (VStr "body", VStr text)]),
               w)).
Proof.
  assert (Hraise : common.create_lambda_response (VInt 200) (nested_list 900) empty_world
                   = (inl repr_recursion, empty_world)).
  { vm_compute. reflexivity. }
  split; [ exact Hraise | ].
  intros H. destruct (H (VInt 200) (nested_list 900) empty_world) as [text Htext].
  rewrite Hraise in Htext. discriminate Htext.
Qed.

(** C5, amended: for every status code and every body [str] accepts,
    the envelope of [create_lambda_response(status_code, body)] holds
    [status_code] unchanged; its body is [body] itself when [body] is
    text and [str(body)] otherwise.  In particular the call of the test
    suite, [create_lambda_response(200, {"message": "success"})], made
    with the sample limits, has status code 200 and the body
    [{'message': 'success'}]. *)
Theorem create_lambda_response_status_and_body
    (status_code body : value) (w : world) :
  str_accepts (sys w) body = true ->
  exists r text,
    str (sys w) body = inr text
    /\ common.create_lambda_response status_code body w = (inr r, w)
    /\ getitem r "statusCode" = Some status_code
    /\ getitem r "body" = Some (VStr text)
    /\ (forall s, body = VStr s -> getitem r "body" = Some body)
    /\ common.create_lambda_response
         (VInt 200) (VDict [(VStr "message", VStr "success")]) empty_world
       = (inr (envelope 200 "{'message': 'success'}"), empty_world).
Proof.
  intros Hok. rewrite create_lambda_response_run.
  rewrite <- str_returns in Hok.
  destruct (str (sys w) body) as [e | text] eqn:Hstr; [ discriminate Hok | ].
  exists (VDict [(VStr "statusCode", status_code); (VStr "body", VStr text)]), text.
  repeat split.
  intros s ->. injection Hstr as <-. reflexivity.
Qed.

Lemma create_lambda_response_status_and_body_witness :
  str_accepts sample_limits (VList [VNone; VBool true]) = true
  /\ exists r text,
      str sample_limits (VList [VNone; VBool true]) = inr text
      /\ common.create_lambda_response (VInt 404) (VList [VNone; VBool true]) empty_world
         = (inr r, empty_world)
      /\ getitem r "statusCode" = Some (VInt 404)
      /\ getitem r "body" = Some (VStr text)
      /\ (forall s, VList [VNone; VBool true] = VStr s ->
          getitem r "body" = Some (VList [VNone; VBool true]))
      /\ common.create_lambda_response
           (VInt 200) (VDict [(VStr "message", VStr "success")]) empty_world
         = (inr (envelope 200 "{'message': 'success'}"), empty_world).
Proof.
  split; [ vm_compute; reflexivity | ].
  apply (create_lambda_response_status_and_body
           (VInt 404) (VList [VNone; VBool true]) empty_world).
  vm_compute. reflexivity.
Defined.

(** C6: for every variable name and default, [get_environment_variable]
    returns the variable's value when the environment has it and the
    default when it has not, and leaves the world as it found it.  In
    particular ["UNSET_NAME_X"] with default ["fallback"] gives
    ["fallback"] in every environment without that variable. *)
Theorem get_environment_variable_lookup
    (name : string) (default : value) (w : world) :
  (forall x, environ w !! name = Some x ->
     common.get_environment_variable (VStr name) default w = (inr (VStr x), w))
  /\ (environ w !! name = None ->
      common.get_environment_variable (VStr name) default w = (inr default, w))
  /\ (environ w !! "UNSET_NAME_X" = None ->
      common.get_environment_variable (VStr "UNSET_NAME_X") (VStr "fallback") w
      = (inr (VStr "fallback"), w)).
Proof.
  unfold common.get_environment_variable, os_environ_get.
  split; [ | split ].
  - intros x ->. reflexivity.
  - intros ->. reflexivity.
  - intros ->. reflexivity.
Qed.

Lemma get_environment_variable_lookup_witness :
  common.get_environment_variable (VStr "HOME") (VStr "fallback") (World [] home_environ sample_limits)
  = (inr (VStr "/root"), World [] home_environ sample_limits)
  /\ common.get_environment_variable (VStr "UNSET_NAME_X") (VStr "fallback")
       (World [] home_environ sample_limits)
     = (inr (VStr "fallback"), World [] home_environ sample_limits).
Proof.
  split.
  - apply (proj1 (get_environment_variable_lookup
                    "HOME" (VStr "fallback") (World [] home_environ sample_limits)) "/root").
    vm_compute. reflexivity.
  - apply (proj2 (proj2 (get_environment_variable_lookup
                           "HOME" (VStr "fallback") (World [] home_environ sample_limits)))).
    vm_compute. reflexivity.
Defined.

(** C10: [hello_world()] is the text "Hello World from Common Utils!",
    whatever the call. *)
Theorem hello_world_literal (call : unit) :
  common.hello_world call = VStr "Hello World from Common Utils!"
  /\ forall lim, str lim (common.hello_world call)
                 = inr "Hello World from Common Utils!".
Proof. split; reflexivity. Qed.

(** ** No error values *)

(** C7: whenever a handler stub returns, the envelope it returns has
    statusCode 200; when it does not return, the exception is the one the
    serializer raised on the event, not a value the stub made up; and the
    environment lookup on a text name always returns. *)
Theorem handlers_return_only_200
    {C : Type} (event : value) (context : C) (w : world) :
  (forall r w', release_lock.lambda_handler event context w = (inr r, w') ->
     getitem r "statusCode" = Some (VInt 200))
  /\ (forall r w', s3_trigger.lambda_handler event context w = (inr r, w') ->
       getitem r "statusCode" = Some (VInt 200))
  /\ (forall e w', release_lock.lambda_handler event context w = (inl e, w') ->
       json_dumps (sys w) event = inl e)
  /\ (forall e w', s3_trigger.lambda_handler event context w = (inl e, w') ->
       json_dumps (sys w) event = inl e)
  /\ (forall name default,
       returns (fst (common.get_environment_variable (VStr name) default w)) = true).
Proof.
  rewrite release_lock_run, s3_trigger_run.
  destruct (json_dumps (sys w) event) as [e | logged].
  - repeat split; try discriminate; intros e' w' [= -> _]; reflexivity.
  - repeat split; try discriminate; intros r w' [= <- _]; reflexivity.
Qed.

Lemma handlers_return_only_200_witness :
  getitem (envelope 200 release_lock_text) "statusCode" = Some (VInt 200)
  /\ getitem (envelope 200 s3_trigger_text) "statusCode" = Some (VInt 200)
  /\ json_dumps sample_limits bytes_event
     = inl (TypeError "Object of type bytes is not JSON serializable").
Proof.
  split; [ | split ].
  - apply (proj1 (handlers_return_only_200 upload_event VNone empty_world)
             (envelope 200 release_lock_text)
             (after_prints empty_world
                ["Hello World - Release Lock Lambda";
                 "Received event: " +:+ "{" +:+ quoted "bucket" +:+ ": " +:+ quoted "x"
                   +:+ ", " +:+ quoted "key" +:+ ": " +:+ quoted "y" +:+ "}"])).
    reflexivity.
  - apply (proj1 (proj2 (handlers_return_only_200 upload_event VNone empty_world))
             (envelope 200 s3_trigger_text)
             (after_prints empty_world
                ["Hello World - S3 Trigger Lambda";
                 "Received event: " +:+ "{" +:+ quoted "bucket" +:+ ": " +:+ quoted "x"
                   +:+ ", " +:+ quoted "key" +:+ ": " +:+ quoted "y" +:+ "}"])).
    reflexivity.
  - apply (proj1 (proj2 (proj2 (handlers_return_only_200 bytes_event VNone empty_world)))
             (TypeError "Object of type bytes is not JSON serializable")
             (after_prints empty_world ["Hello World - Release Lock Lambda"])).
    reflexivity.
Defined.

(** ** The handler stubs against the shared utility *)

(** C8: whenever a handler stub returns, what it returns is
    [create_lambda_response(200, text)] for the JSON text of its fixed
    body, a call that returns in every world.  The stubs build the dict
    themselves; the two constructions agree on every such run. *)
Theorem handlers_agree_with_create_lambda_response
    {C : Type} (event : value) (context : C) (w w' : world) (r : value) :
  (release_lock.lambda_handler event context w = (inr r, w') ->
     exists text,
       json_dumps (sys w) release_lock_body = inr text
       /\ forall w2, common.create_lambda_response (VInt 200) (VStr text) w2
                     = (inr r, w2))
  /\ (s3_trigger.lambda_handler event context w = (inr r, w') ->
       exists text,
         json_dumps (sys w) s3_trigger_body = inr text
         /\ forall w2, common.create_lambda_response (VInt 200) (VStr text) w2
                       = (inr r, w2)).
Proof.
  rewrite release_lock_run, s3_trigger_run.
  destruct (json_dumps (sys w) event) as [e | logged]; split; try discriminate.
  - intros [= <- _]. exists release_lock_text.
    split; [ apply fixed_bodies_text | reflexivity ].
  - intros [= <- _]. exists s3_trigger_text.
    split; [ apply fixed_bodies_text | reflexivity ].
Qed.

Lemma handlers_agree_with_create_lambda_response_witness :
  exists text,
    json_dumps sample_limits release_lock_body = inr text
    /\ forall w2, common.create_lambda_response (VInt 200) (VStr text) w2
                  = (inr (envelope 200 release_lock_text), w2).
Proof.
  apply (proj1 (handlers_agree_with_create_lambda_response
                  (VDict []) VNone empty_world
                  (after_prints empty_world
                     ["Hello World - Release Lock Lambda"; "Received event: {}"])
                  (envelope 200 release_lock_text))).
  reflexivity.
Defined.

(** ** The batch job stub *)

(** C9: whenever the platform's parser hands back options that hold a
    job name, the script initialises the job under that name, prints
    exactly two lines, the greeting and then ["Job Name: "] followed by
    the name, and ends by committing the job; it finishes without an
    exception and the commit is its last effect. *)
Theorem raw_ingestion_job_prints_and_commits
    (getResolvedOptions : list string -> list string -> exn + gmap string string)
    (argv : list string) (args : gmap string string) (job_name : string)
    (w : world) :
  getResolvedOptions argv ["JOB_NAME"] = inr args ->
  args !! "JOB_NAME" = Some job_name ->
  exists w',
    raw_ingestion_job.script getResolvedOptions argv w = (inr tt, w')
    /\ trace w' = trace w ++ [SparkContext_new; GlueContext_new; SparkSession_get;
                              Job_new; Job_init job_name args;
                              Printed "Hello World - Raw Ingestion Glue Job";
                              Printed ("Job Name: " +:+ job_name);
                              Job_commit]
    /\ stdout w' = stdout w ++ ["Hello World - Raw Ingestion Glue Job";
                                "Job Name: " +:+ job_name]
    /\ environ w' = environ w.
Proof.
  intros Hargs Hname.
  unfold raw_ingestion_job.script, bind, print, emit, option_getitem.
  rewrite Hargs. simpl. rewrite Hname. simpl.
  eexists. split; [ reflexivity | ]. simpl.
  repeat rewrite <- app_assoc. simpl.
  split; [ reflexivity | ]. split; [ | reflexivity ].
  unfold stdout. simpl. rewrite flat_map_app. reflexivity.
Qed.

Lemma raw_ingestion_job_prints_and_commits_witness :
  exists w',
    raw_ingestion_job.script nightly_options ["job.py"; "--JOB_NAME"; "nightly"] empty_world
    = (inr tt, w')
    /\ trace w' = trace empty_world
                  ++ [SparkContext_new; GlueContext_new; SparkSession_get;
                      Job_new; Job_init "nightly" {[ "JOB_NAME" := "nightly" ]};
                      Printed "Hello World - Raw Ingestion Glue Job";
                      Printed ("Job Name: " +:+ "nightly");
                      Job_commit]
    /\ stdout w' = stdout empty_world ++ ["Hello World - Raw Ingestion Glue Job";
                                          "Job Name: " +:+ "nightly"]
    /\ environ w' = environ empty_world.
Proof.
  apply (raw_ingestion_job_prints_and_commits
           nightly_options ["job.py"; "--JOB_NAME"; "nightly"]
           {[ "JOB_NAME" := "nightly" ]} "nightly" empty_world).
  - reflexivity.
  - vm_compute. reflexivity.
Defined.

(** * Further properties of the same code *)

(** ** Printable text *)

Lemma printable_app (a b : string) :
  printable (a +:+ b) = printable a && printable b.
Proof.
  induction a as [ | c a IH ]; [ reflexivity | ].
  simpl. rewrite IH. by rewrite andb_assoc.
Qed.

Lemma printable_concat_map (f : ascii -> string) (s : string) :
  (forall c, printable (f c) = true) -> printable (concat_map f s) = true.
Proof.
  intros Hf. induction s as [ | c s IH ]; [ reflexivity | ].
  simpl. by rewrite printable_app, Hf, IH.
Qed.

Lemma json_escape_char_printable (c : ascii) :
  printable (json_escape_char c) = true.
Proof. destruct c as [[] [] [] [] [] [] [] []]; reflexivity. Qed.

Lemma json_str_printable (s : string) : printable (json_str s) = true.
Proof.
  unfold json_str. rewrite !printable_app.
  rewrite printable_concat_map by apply json_escape_char_printable.
  reflexivity.
Qed.

Lemma printable_join (sep : string) (l : list string) :
  printable sep = true ->
  Forall (fun s => printable s = true) l ->
  printable (join sep l) = true.
Proof.
  intros Hsep Hl. induction Hl as [ | x r Hx Hr IH ]; [ reflexivity | ].
  destruct r as [ | y r ]; [ exact Hx | ].
  change (join sep (x :: y :: r)) with (x +:+ sep +:+ join sep (y :: r)).
  by rewrite !printable_app, Hx, Hsep, IH.
Qed.

Lemma pretty_N_char_printable (x : N) : printable_char (pretty_N_char x) = true.
Proof. unfold pretty_N_char. by repeat case_match. Qed.

Lemma pretty_N_go_printable (x : N) (s : string) :
  printable s = true -> printable (pretty_N_go x s) = true.
Proof.
  revert s. induction (N.lt_wf_0 x) as [x _ IH]. intros s Hs.
  assert (x = 0 \/ 0 < x)%N as [-> | Hpos] by lia.
  - by rewrite pretty_N_go_0.
  - rewrite pretty_N_go_step by done. apply IH.
    + by apply N.div_lt.
    + simpl. by rewrite pretty_N_char_printable, Hs.
Qed.

Lemma pretty_positive_printable (p : positive) : printable (pretty p) = true.
Proof.
  unfold pretty, pretty_positive, pretty, pretty_N.
  case_decide; [ reflexivity | ]. by apply pretty_N_go_printable.
Qed.

Lemma pretty_Z_printable (n : Z) : printable (pretty n) = true.
Proof.
  destruct n as [ | p | p ]; [ reflexivity | apply pretty_positive_printable | ].
  change (pretty (Z.neg p)) with ("-" +:+ pretty p).
  by rewrite printable_app, pretty_positive_printable.
Qed.

Lemma int_text_printable (lim : limits) (n : Z) (text : string) :
  int_text lim n = inr text -> printable text = true.
Proof.
  unfold int_text. destruct (exceeds_digits lim n); [ discriminate | ].
  intros [= <-]. apply pretty_Z_printable.
Qed.

Lemma json_dumps_at_printable (lim : limits) (v : value) :
  forall room text, json_dumps_at lim v room = inr text -> printable text = true.
Proof.
  induction v as [ | [] | n | s | s | xs IH | xs IH | items IH ]
    using value_ind_nested; intros room text Htext;
    try (injection Htext as <-; reflexivity); try discriminate Htext.
  - by apply (int_text_printable lim n).
  - injection Htext as <-. apply json_str_printable.
  - destruct room as [ | room' ]; simpl in Htext; [ discriminate Htext | ].
    match type of Htext with
    | match ?f xs with _ => _ end = _ =>
        assert (E : forall ss, f xs = inr ss -> Forall (fun s => printable s = true) ss)
    end.
    { clear Htext. induction IH as [ | x r Hx _ IHr ]; intros ss Hss.
      - injection Hss as <-. constructor.
      - simpl in Hss. specialize (Hx room').
        destruct (json_dumps_at lim x room') as [ | sx ]; [ discriminate | ].
        match type of Hss with
        | match ?a with _ => _ end = _ => destruct a as [ | sr ] eqn:Hr
        end; [ discriminate | ].
        injection Hss as <-. constructor; [ by apply Hx | by apply IHr ]. }
    match type of Htext with
    | match ?a with _ => _ end = _ => destruct a as [ | ss ] eqn:Hss
    end; [ discriminate | ].
    injection Htext as <-. rewrite !printable_app.
    rewrite printable_join; [ reflexivity | reflexivity | by apply E ].
  - destruct room as [ | room' ]; simpl in Htext; [ discriminate Htext | ].
    match type of Htext with
    | match ?f xs with _ => _ end = _ =>
        assert (E : forall ss, f xs = inr ss -> Forall (fun s => printable s = true) ss)
    end.
    { clear Htext. induction IH as [ | x r Hx _ IHr ]; intros ss Hss.
      - injection Hss as <-. constructor.
      - simpl in Hss. specialize (Hx room').
        destruct (json_dumps_at lim x room') as [ | sx ]; [ discriminate | ].
        match type of Hss with
        | match ?a with _ => _ end = _ => destruct a as [ | sr ] eqn:Hr
        end; [ discriminate | ].
        injection Hss as <-. constructor; [ by apply Hx | by apply IHr ]. }
    match type of Htext with
    | match ?a with _ => _ end = _ => destruct a as [ | ss ] eqn:Hss
    end; [ discriminate | ].
    injection Htext as <-. rewrite !printable_app.
    rewrite printable_join; [ reflexivity | reflexivity | by apply E ].
  - destruct room as [ | room' ]; simpl in Htext; [ discriminate Htext | ].
    match type of Htext with
    | match ?f items with _ => _ end = _ =>
        assert (E : forall ss, f items = inr ss -> Forall (fun s => printable s = true) ss)
    end.
    { clear Htext. induction IH as [ | kv r [_ Hx] _ IHr ]; intros ss Hss.
      - injection Hss as <-. constructor.
      - simpl in Hss. specialize (Hx room').
        destruct (json_key lim (fst kv)) as [ | k ]; [ discriminate | ].
        destruct (json_dumps_at lim (snd kv) room') as [ | sx ]; [ discriminate | ].
        match type of Hss with
        | match ?a with _ => _ end = _ => destruct a as [ | sr ] eqn:Hr
        end; [ discriminate | ].
        injection Hss as <-. constructor; [ | by apply IHr ].
        rewrite !printable_app, json_str_printable, (Hx sx) by reflexivity.
        reflexivity. }
    match type of Htext with
    | match ?a with _ => _ end = _ => destruct a as [ | ss ] eqn:Hss
    end; [ discriminate | ].
    injection Htext as <-. rewrite !printable_app.
    rewrite printable_join; [ reflexivity | reflexivity | by apply E ].
Qed.

Lemma string_app_assoc (a b c : string) : (a +:+ b) +:+ c = a +:+ b +:+ c.
Proof.
  induction a as [ | x a IH ]; [ reflexivity | ].
  change (String x ((a +:+ b) +:+ c) = String x (a +:+ b +:+ c)). by rewrite IH.
Qed.

Lemma script_run
    (getResolvedOptions : list string -> list string -> exn + gmap string string)
    (argv : list string) (w : world) :
  raw_ingestion_job.script getResolvedOptions argv w =
  match getResolvedOptions argv ["JOB_NAME"] with
  | inl e => (inl e, w)
  | inr args =>
      match args !! "JOB_NAME" with
      | None =>
          (inl (KeyError "JOB_NAME"),
           World (trace w ++ [SparkContext_new; GlueContext_new; SparkSession_get;
                              Job_new])
                 (environ w) (sys w))
      | Some job_name =>
          (inr tt,
           World (trace w ++ [SparkContext_new; GlueContext_new; SparkSession_get;
                              Job_new; Job_init job_name args;
                              Printed "Hello World - Raw Ingestion Glue Job";
                              Printed ("Job Name: " +:+ job_name);
                              Job_commit])
                 (environ w) (sys w))
      end
  end.
Proof.
  unfold raw_ingestion_job.script, bind, print, emit, option_getitem.
  destruct (getResolvedOptions argv ["JOB_NAME"]) as [e | args]; simpl;
    [ reflexivity | ].
  destruct (args !! "JOB_NAME") as [job_name | ]; simpl;
    repeat rewrite <- app_assoc; reflexivity.
Qed.

(** ** The handler stubs *)

(** X4: what a handler stub returns is itself an event both stubs
    accept: handed back in as the event, each stub returns its envelope
    again instead of faulting. *)
Theorem handler_result_is_an_event
    {C : Type} (event : value) (context : C) (w w' : world) (r : value) :
  release_lock.lambda_handler event context w = (inr r, w')
  \/ s3_trigger.lambda_handler event context w = (inr r, w') ->
  json_serializable r = true
  /\ forall w2,
      fst (release_lock.lambda_handler r context w2)
      = inr (envelope 200 release_lock_text)
      /\ fst (s3_trigger.lambda_handler r context w2)
         = inr (envelope 200 s3_trigger_text).
Proof.
  rewrite release_lock_run, s3_trigger_run.
  destruct (json_dumps (sys w) event) as [e | logged];
    intros [Hrun | Hrun]; try discriminate Hrun;
    injection Hrun as <- _;
    (split; [ reflexivity | ]); intros w2;
    rewrite release_lock_run, s3_trigger_run;
    match goal with
    | |- context [json_dumps ?l (envelope 200 ?t)] =>
        destruct (envelope_200_dumps l t) as [s ->]
    end; split; reflexivity.
Qed.

Lemma handler_result_is_an_event_witness :
  json_serializable (envelope 200 s3_trigger_text) = true
  /\ forall w2,
      fst (release_lock.lambda_handler (envelope 200 s3_trigger_text) VNone w2)
      = inr (envelope 200 release_lock_text)
      /\ fst (s3_trigger.lambda_handler (envelope 200 s3_trigger_text) VNone w2)
         = inr (envelope 200 s3_trigger_text).
Proof.
  apply (handler_result_is_an_event upload_event VNone empty_world
           (snd (s3_trigger.lambda_handler upload_event VNone empty_world))
           (envelope 200 s3_trigger_text)).
  right. reflexivity.
Defined.

(** X5: whatever the event, a handler stub only prints: it leaves the
    environment, the limits and the job API alone and adds two lines
    when [json.dumps] accepts the event and one when logging it faults,
    each made of printable ASCII characters only, so each is one physical
    line of output. *)
Theorem handlers_print_plain_lines
    {C : Type} (event : value) (context : C) (w : world) :
  (exists lines,
     snd (release_lock.lambda_handler event context w) = after_prints w lines
     /\ Forall (fun l => printable l = true) lines
     /\ length lines = (if json_accepts (sys w) event then 2 else 1)%nat)
  /\ (exists lines,
       snd (s3_trigger.lambda_handler event context w) = after_prints w lines
       /\ Forall (fun l => printable l = true) lines
       /\ length lines = (if json_accepts (sys w) event then 2 else 1)%nat).
Proof.
  rewrite release_lock_run, s3_trigger_run, <- json_dumps_returns.
  pose proof (json_dumps_at_printable (sys w) event
                (Pos.to_nat (json_room (sys w)))) as Hplain.
  fold (json_dumps (sys w) event) in Hplain.
  destruct (json_dumps (sys w) event) as [e | logged]; simpl.
  - split; eexists; (split; [ reflexivity | ]);
      (split; [ | reflexivity ]); by repeat constructor.
  - specialize (Hplain logged eq_refl).
    split; eexists; (split; [ reflexivity | ]);
      (split; [ | reflexivity ]); repeat constructor;
      rewrite printable_app; exact Hplain.
Qed.

(** ** The batch job stub off its expected path *)

(** X7: when the argument parser raises, the script stops on its first
    statement with that exception: no Spark or Glue object is created,
    nothing is printed, the job is neither initialised nor committed. *)
Theorem raw_ingestion_job_parser_failure
    (getResolvedOptions : list string -> list string -> exn + gmap string string)
    (argv : list string) (e : exn) (w : world) :
  getResolvedOptions argv ["JOB_NAME"] = inl e ->
  raw_ingestion_job.script getResolvedOptions argv w = (inl e, w).
Proof. intros Hfail. by rewrite script_run, Hfail. Qed.

Lemma raw_ingestion_job_parser_failure_witness :
  raw_ingestion_job.script rejecting_options ["job.py"] empty_world
  = (inl (TypeError "the following arguments are required: --JOB_NAME"), empty_world).
Proof.
  apply (raw_ingestion_job_parser_failure rejecting_options ["job.py"]
           (TypeError "the following arguments are required: --JOB_NAME")
           empty_world).
  reflexivity.
Defined.

(** X8: when the parser hands back options without a JOB_NAME entry, the
    script raises [KeyError('JOB_NAME')] on [job.init]'s argument: the
    Spark context, the Glue context, the session and the job object have
    been created by then, but the job is not initialised, nothing is
    printed and nothing is committed. *)
Theorem raw_ingestion_job_missing_job_name
    (getResolvedOptions : list string -> list string -> exn + gmap string string)
    (argv : list string) (args : gmap string string) (w : world) :
  getResolvedOptions argv ["JOB_NAME"] = inr args ->
  args !! "JOB_NAME" = None ->
  raw_ingestion_job.script getResolvedOptions argv w
  = (inl (KeyError "JOB_NAME"),
     World (trace w ++ [SparkContext_new; GlueContext_new; SparkSession_get; Job_new])
           (environ w) (sys w))
  /\ stdout (snd (raw_ingestion_job.script getResolvedOptions argv w)) = stdout w.
Proof.
  intros Hargs Hname. rewrite script_run, Hargs, Hname. split; [ reflexivity | ].
  unfold stdout. simpl. rewrite flat_map_app. simpl. by rewrite app_nil_r.
Qed.

Lemma raw_ingestion_job_missing_job_name_witness :
  raw_ingestion_job.script unnamed_options ["job.py"] empty_world
  = (inl (KeyError "JOB_NAME"),
     World (trace empty_world
            ++ [SparkContext_new; GlueContext_new; SparkSession_get; Job_new])
           (environ empty_world) (sys empty_world))
  /\ stdout (snd (raw_ingestion_job.script unnamed_options ["job.py"] empty_world))
     = stdout empty_world.
Proof.
  apply (raw_ingestion_job_missing_job_name unnamed_options ["job.py"] ∅ empty_world).
  - reflexivity.
  - vm_compute. reflexivity.
Defined.

(** X9: for every parser and command line, the script only appends to
    the trace and leaves the environment alone; it commits the job if and
    only if it finishes without an exception, which happens if and only
    if the parser resolved options that hold a JOB_NAME; and it never
    commits a job it has not initialised before. *)
Theorem raw_ingestion_job_commits_iff_named
    (getResolvedOptions : list string -> list string -> exn + gmap string string)
    (argv : list string) (w : world) :
  exists added,
    trace (snd (raw_ingestion_job.script getResolvedOptions argv w))
    = trace w ++ added
    /\ environ (snd (raw_ingestion_job.script getResolvedOptions argv w)) = environ w
    /\ (In Job_commit added
        <-> fst (raw_ingestion_job.script getResolvedOptions argv w) = inr tt)
    /\ (fst (raw_ingestion_job.script getResolvedOptions argv w) = inr tt
        <-> exists args job_name,
              getResolvedOptions argv ["JOB_NAME"] = inr args
              /\ args !! "JOB_NAME" = Some job_name)
    /\ (In Job_commit added ->
        exists job_name args before after,
          added = before ++ Job_init job_name args :: after ++ [Job_commit]).
Proof.
  rewrite script_run.
  destruct (getResolvedOptions argv ["JOB_NAME"]) as [e | args].
  - exists []. simpl. rewrite app_nil_r.
    repeat split; try done.
    intros (args & job_name & Hargs & _). discriminate Hargs.
  - destruct (args !! "JOB_NAME") as [job_name | ] eqn:Hname.
    + eexists. split; [ reflexivity | ]. simpl.
      repeat split; try done.
      * intros _. do 7 right. by left.
      * intros _. by exists args, job_name.
      * intros _.
        exists job_name, args,
          [SparkContext_new; GlueContext_new; SparkSession_get; Job_new],
          [Printed "Hello World - Raw Ingestion Glue Job";
           Printed ("Job Name: " +:+ job_name)].
        reflexivity.
    + eexists. split; [ reflexivity | ]. simpl.
      repeat split; try done.
      * intros [H | [H | [H | [H | []]]]]; discriminate H.
      * intros (args' & job_name & [= <-] & Hsome). congruence.
      * intros [H | [H | [H | [H | []]]]]; discriminate H.
Qed.

(** ** The response envelope, serialized *)

(** X2: building the envelope and then serializing it with
    [json.dumps] raises only what [str(body)] raises or what encoding
    the status code, one container down, raises; otherwise the result is
    the text [{"statusCode": <status>, "body": <str(body) as a JSON
    string>}], also for a body [json.dumps] itself rejects. *)
Theorem json_dumps_create_lambda_response (status_code body : value) (w : world) :
  (r <- common.create_lambda_response status_code body ;;
   with_limits (fun lim => json_dumps lim r)) w
  = match str (sys w) body with
    | inl e => (inl e, w)
    | inr text =>
        match json_dumps_at (sys w) status_code
                (Nat.pred (Pos.to_nat (json_room (sys w)))) with
        | inl e => (inl e, w)
        | inr status =>
            (inr ("{" +:+ quoted "statusCode" +:+ ": " +:+ status +:+ ", "
                      +:+ quoted "body" +:+ ": " +:+ json_str text +:+ "}"), w)
        end
    end.
Proof.
  unfold bind. rewrite create_lambda_response_run.
  destruct (str (sys w) body) as [e | text]; [ reflexivity | ].
  unfold with_limits, json_dumps.
  destruct (Pos2Nat.is_succ (json_room (sys w))) as [room ->]. simpl.
  destruct (json_dumps_at (sys w) status_code room) as [e | status];
    [ reflexivity | ].
  do 2 f_equal. change (json_str "statusCode") with (quoted "statusCode").
  change (json_str "body") with (quoted "body").
  unfold join. by rewrite !string_app_assoc.
Qed.
